(** * cmake/settings/ini-to-stdio.py

    A shallow embedding of the settings translator of F Prime's CMake build
    ([cmake/settings/ini-to-stdio.py]) and the properties of its output
    protocol.

    Python strings are lists of characters; the characters are the code
    points 0..255.  A path object is represented by its [str()].  Every
    [print] call contributes one chunk to the stream it writes to, so a
    stream is the list of chunks in the order they were written. *)

From Stdlib Require Import List Ascii Bool Arith Lia ZArith.
From Stdlib Require String.
Import ListNotations.
Import String.StringSyntax.

Local Open Scope string_scope.
Local Open Scope list_scope.

(** String literals stand for their list of characters. *)
Coercion String.list_ascii_of_string : String.string >-> list.

Definition str := list ascii.

(** ** The string built-ins the script uses *)

Module Py.

(** [s.startswith(p)] *)
Fixpoint startswith (p s : str) : bool :=
  match p, s with
  | [], _ => true
  | _ :: _, [] => false
  | a :: p', b :: s' => Ascii.eqb a b && startswith p' s'
  end.

(** [p in s] *)
Fixpoint contains (p s : str) : bool :=
  startswith p s
  || match s with
     | [] => false
     | _ :: t => contains p t
     end.

(** [s.replace(old, new)] for a non-empty [old]: the leftmost occurrence is
    replaced and the scan resumes behind it.  [skip] counts the characters
    of a match that are still to be passed over. *)
Fixpoint replace_from (old new : str) (skip : nat) (s : str) : str :=
  match s with
  | [] => []
  | c :: t =>
      match skip with
      | S k => replace_from old new k t
      | O =>
          if startswith old s
          then new ++ replace_from old new (List.length old - 1) t
          else c :: replace_from old new 0 t
      end
  end.

(** [s.replace("", new)]: [new] goes before every character and at the end. *)
Fixpoint interleave (new s : str) : str :=
  match s with
  | [] => new
  | c :: t => new ++ c :: interleave new t
  end.

(** [s.replace(old, new)] *)
Definition replace (old new s : str) : str :=
  match old with
  | [] => interleave new s
  | _ :: _ => replace_from old new 0 s
  end.

(** [sep.join(items)] *)
Fixpoint join (sep : str) (items : list str) : str :=
  match items with
  | [] => []
  | [x] => x
  | x :: rest => x ++ sep ++ join sep rest
  end.

(** [s.split(sep)] for a one-character separator. *)
Fixpoint split (sep : ascii) (s : str) : list str :=
  match s with
  | [] => [[]]
  | c :: t =>
      if Ascii.eqb c sep then [] :: split sep t
      else match split sep t with
           | h :: r => (c :: h) :: r
           | [] => [[c]]
           end
  end.

(** [s.split(sep, 1)] for a one-character separator: the part before the
    first separator, and the part behind it when there is a separator.  The
    Python list has one element in the first case and two in the second. *)
Fixpoint split1 (sep : ascii) (s : str) : str * option str :=
  match s with
  | [] => ([], None)
  | c :: t =>
      if Ascii.eqb c sep then ([], Some t)
      else let '(h, r) := split1 sep t in (c :: h, r)
  end.

(** [c.isspace()] on the code points 0..255: TAB, LF, VT, FF, CR, the
    separators FS, GS, RS and US, the space, NEL and the no-break space. *)
Definition isspace (c : ascii) : bool :=
  let n := nat_of_ascii c in
  ((9 <=? n) && (n <=? 13)) || ((28 <=? n) && (n <=? 32))
  || (n =? 133) || (n =? 160).

Fixpoint lstrip (s : str) : str :=
  match s with
  | [] => []
  | c :: t => if isspace c then lstrip t else s
  end.

Definition rstrip (s : str) : str := rev (lstrip (rev s)).

(** [s.strip()] *)
Definition strip (s : str) : str := rstrip (lstrip s).

(** [os.path.commonprefix([a, b])]: the longest common prefix, character by
    character. *)
Fixpoint commonprefix (a b : str) : str :=
  match a, b with
  | x :: a', y :: b' => if Ascii.eqb x y then x :: commonprefix a' b' else []
  | _, _ => []
  end.

(** [s[: -1 * n]]: a stop of [-n] counts from the end, and a stop of [0]
    (which [-1 * 0] is) gives the empty string. *)
Definition slice_to_neg (s : str) (n : nat) : str :=
  match n with
  | O => []
  | S _ => firstn (List.length s - n) s
  end.

(** [s[::-1]] *)
Definition reversed (s : str) : str := rev s.




End Py.

(** ** Output streams and exceptions *)

Record stdio := mkIO { stdout : list str; stderr : list str }.

Inductive exn :=
| KeyError (key : str)
| AssertionError (msg : str).

(** [str(exc)]: a [KeyError] shows the [repr] of its key (the keys here are
    plain identifiers), an [AssertionError] its message. *)
Definition str_of_exn (e : exn) : str :=
  match e with
  | KeyError key => "'" ++ key ++ "'"
  | AssertionError msg => msg
  end.

(** A computation writes to the two streams and returns or raises. *)
Definition M (A : Type) : Type := stdio -> stdio * (exn + A).

Definition ret {A} (a : A) : M A := fun io => (io, inr a).

Definition bind {A B} (m : M A) (k : A -> M B) : M B :=
  fun io =>
    match m io with
    | (io', inr a) => k a io'
    | (io', inl e) => (io', inl e)
    end.

Definition raise {A} (e : exn) : M A := fun io => (io, inl e).

Notation "x <- m ;; k" := (bind m (fun x => k))
  (at level 61, m at next level, right associativity).
Notation "m ;; k" := (bind m (fun _ => k))
  (at level 61, right associativity).

(** [print(text, end=ending)] *)
Definition print (text ending : str) : M unit :=
  fun io => (mkIO (stdout io ++ [text ++ ending]) (stderr io), inr tt).

(** [print(text, end=ending, file=sys.stderr)] *)
Definition eprint (text ending : str) : M unit :=
  fun io => (mkIO (stdout io) (stderr io ++ [text ++ ending]), inr tt).

(** [assert cond, msg] *)
Definition assert (cond : bool) (msg : str) : M unit :=
  if cond then ret tt else raise (AssertionError msg).

(** [for x in xs: body(x)] *)
Fixpoint for_each {A} (xs : list A) (body : A -> M unit) : M unit :=
  match xs with
  | [] => ret tt
  | x :: rest => body x ;; for_each rest body
  end.

(** [try: m  except KeyError as e: handler(e)] *)
Definition try_except_KeyError (m : M unit) (handler : exn -> M unit) : M unit :=
  fun io =>
    match m io with
    | (io', inl (KeyError key)) => handler (KeyError key) io'
    | r => r
    end.

(** ** The script *)

(** [REMAPPING]: the module-level dict, in insertion order.  It is empty when
    the module is loaded and [main] stores its one rule before anything is
    printed; the printing functions read it. *)
Definition REMAPPING_t := list (str * str).

(** The loop of [print_setting] over [REMAPPING.items()]. *)
Fixpoint apply_remapping (REMAPPING : REMAPPING_t) (value : str) : str :=
  match REMAPPING with
  | [] => value
  | (initial, final) :: rest => apply_remapping rest (Py.replace initial final value)
  end.

(** [str(value).replace(";", "\\;")] *)
Definition escape (value : str) : str := Py.replace ";" "\;" value.

(** [print_setting(setting, value, ending)]: the value is escaped, then
    remapped, then printed behind the name. *)
Definition print_setting (REMAPPING : REMAPPING_t)
    (setting value ending : str) : M unit :=
  let value := escape value in
  let value := apply_remapping REMAPPING value in
  print (setting ++ "=" ++ value) ending.

(** The body of the loop of [print_list_settings]: [splits[0]] is the key,
    and [print_setting] gets the elements of [splits] as its arguments, so
    the value is passed when the line has one. *)
Definition print_list_item (REMAPPING : REMAPPING_t) (item : str) : M unit :=
  let splits := Py.split1 "="%char (Py.strip item) in
  match fst splits with
  | [] => ret tt
  | _ :: _ =>
      match snd splits with
      | None => print_setting REMAPPING (fst splits) "" ";"
      | Some value => print_setting REMAPPING (fst splits) value ";"
      end
  end.

Definition print_list_settings (REMAPPING : REMAPPING_t) (items : list str) : M unit :=
  for_each items (print_list_item REMAPPING).

(** The settings the script reads from the resolver's dict.  The dict comes
    from [fprime.fbuild.settings.IniSettings.load]; the script relies on the
    shape of each entry: [library_locations] is a list of paths,
    [default_cmake_options] is text, and the other three are single paths. *)
Inductive setting :=
| framework_path
| project_root
| library_locations
| default_cmake_options
| install_destination.

Definition setting_name (k : setting) : str :=
  match k with
  | framework_path => "framework_path"
  | project_root => "project_root"
  | library_locations => "library_locations"
  | default_cmake_options => "default_cmake_options"
  | install_destination => "install_destination"
  end.

Definition value (k : setting) : Type :=
  match k with
  | library_locations => list str
  | _ => str
  end.

(** A loaded dict, restricted to the keys the script reads: [None] for a key
    the dict does not have. *)
Definition IniSettings := forall k : setting, option (value k).

Definition str_eqb (a b : str) : bool :=
  if list_eq_dec ascii_dec a b then true else false.

Definition list_str_eqb (a b : list str) : bool :=
  if list_eq_dec (list_eq_dec ascii_dec) a b then true else false.

(** [==] on two values of one setting. *)
Definition value_eqb (k : setting) : value k -> value k -> bool :=
  match k with
  | library_locations => list_str_eqb
  | _ => str_eqb
  end.

(** [d[setting]] *)
Definition getitem (d : IniSettings) (k : setting) : M (value k) :=
  match d k with
  | Some v => ret v
  | None => raise (KeyError (setting_name k))
  end.

(** The handler [CMAKE_NEEDED_SETTINGS] has for each key. *)
Definition handler (REMAPPING : REMAPPING_t) (k : setting) : value k -> M unit :=
  match k with
  | framework_path =>
      fun v => print_setting REMAPPING "FPRIME_FRAMEWORK_PATH" v ";"
  | project_root =>
      fun v => print_setting REMAPPING "FPRIME_PROJECT_ROOT" v ";"
  | library_locations =>
      fun v => print_setting REMAPPING "FPRIME_LIBRARY_LOCATIONS" (Py.join ";" v) ";"
  | default_cmake_options =>
      fun v => print_list_settings REMAPPING (Py.split "010"%char v)
  | install_destination =>
      fun v => print_setting REMAPPING "CMAKE_INSTALL_PREFIX" v ";"
  end.

(** The keys of [CMAKE_NEEDED_SETTINGS], in the order of the dict. *)
Definition CMAKE_NEEDED_SETTINGS : list setting :=
  [framework_path; project_root; library_locations; default_cmake_options;
   install_destination].

Definition assert_msg : str := "CMake can only parse unittest independent settings".

Definition warning (e : exn) : str :=
  "[WARNING] Failed to load settings.ini field " ++ str_of_exn e
  ++ ". Update fprime-util.".

(** The [try] statement in the loop of [main]. *)
Definition process_setting (REMAPPING : REMAPPING_t)
    (loaded_settings loaded_settings_ut : IniSettings) (k : setting) : M unit :=
  try_except_KeyError
    (setting_value <- getitem loaded_settings k ;;
     ut_setting_value <- getitem loaded_settings_ut k ;;
     assert (value_eqb k setting_value ut_setting_value) assert_msg ;;
     output <- getitem loaded_settings k ;;
     handler REMAPPING k output)
    (fun key_error => eprint (warning key_error) ";").

(** The rule [main] stores in [REMAPPING], from [str(args_ns.settings)] and
    [str(args_ns.settings.resolve())]. *)
Definition common_suffix (ini_path ini_real_path : str) : str :=
  Py.reversed (Py.commonprefix (Py.reversed ini_path) (Py.reversed ini_real_path)).

Definition remapping_rule (ini_path ini_real_path : str) : str * str :=
  let n := List.length (common_suffix ini_path ini_real_path) in
  (Py.slice_to_neg ini_real_path n, Py.slice_to_neg ini_path n).

(** [main], behind the argument parsing and the two calls of the resolver:
    [ini_path] is [str(args_ns.settings)], [ini_real_path] what
    [resolve()] makes of it, and the two dicts are what [IniSettings.load]
    returned for the build and for the unit-test variant. *)
Definition main (ini_path ini_real_path : str)
    (loaded_settings loaded_settings_ut : IniSettings) : M Z :=
  let REMAPPING := [remapping_rule ini_path ini_real_path] in
  for_each CMAKE_NEEDED_SETTINGS
    (process_setting REMAPPING loaded_settings loaded_settings_ut) ;;
  print_setting REMAPPING "FPRIME_SETTINGS_FILE" ini_path "" ;;
  ret 0%Z.

(** A finished process: what it wrote and its exit status. *)
Record process := mkProcess { out : list str; err : list str; status : Z }.

(** The [__main__] block: [sys.exit(main())] leaves with the value [main]
    returns; an exception is printed on [stderr], and the status is 1. *)
Definition script (ini_path ini_real_path : str)
    (loaded_settings loaded_settings_ut : IniSettings) : process :=
  match main ini_path ini_real_path loaded_settings loaded_settings_ut (mkIO [] []) with
  | (io, inr code) => mkProcess (stdout io) (stderr io) code
  | (io, inl exc) =>
      let '(io', _) := eprint (str_of_exn exc) "
" io in
      mkProcess (stdout io') (stderr io') 1%Z
  end.


(** ** What the script writes, as plain lists *)

(** The text of the [print] call of [print_setting]. *)
Definition render (REMAPPING : REMAPPING_t) (name text ending : str) : str :=
  name ++ "=" ++ apply_remapping REMAPPING (escape text) ++ ending.

(** The records [print_list_settings] writes for one line of
    [default_cmake_options]. *)
Definition line_records (REMAPPING : REMAPPING_t) (item : str) : list str :=
  let splits := Py.split1 "="%char (Py.strip item) in
  match fst splits with
  | [] => []
  | _ :: _ =>
      match snd splits with
      | None => [render REMAPPING (fst splits) "" ";"]
      | Some value => [render REMAPPING (fst splits) value ";"]
      end
  end.

(** The records the handler of a setting writes. *)
Definition emitted (REMAPPING : REMAPPING_t) (k : setting) : value k -> list str :=
  match k with
  | framework_path => fun v => [render REMAPPING "FPRIME_FRAMEWORK_PATH" v ";"]
  | project_root => fun v => [render REMAPPING "FPRIME_PROJECT_ROOT" v ";"]
  | library_locations =>
      fun v => [render REMAPPING "FPRIME_LIBRARY_LOCATIONS" (Py.join ";" v) ";"]
  | default_cmake_options =>
      fun v => flat_map (line_records REMAPPING) (Py.split "010"%char v)
  | install_destination => fun v => [render REMAPPING "CMAKE_INSTALL_PREFIX" v ";"]
  end.

(** A setting is consistent unless both dicts have it with different values. *)
Definition consistent (lo ut : IniSettings) (k : setting) : bool :=
  match lo k, ut k with
  | Some v, Some u => value_eqb k v u
  | _, _ => true
  end.

(** A setting is present when both dicts have it. *)
Definition present (lo ut : IniSettings) (k : setting) : bool :=
  match lo k, ut k with
  | Some _, Some _ => true
  | _, _ => false
  end.

(** The output records of a setting both dicts have, none otherwise. *)
Definition block (REMAPPING : REMAPPING_t) (lo ut : IniSettings) (k : setting) : list str :=
  match lo k, ut k with
  | Some v, Some _ => emitted REMAPPING k v
  | _, _ => []
  end.

(** What the [except] branch prints for a setting. *)
Definition warning_chunk (k : setting) : str :=
  warning (KeyError (setting_name k)) ++ ";".

(** The warning of a setting one of the dicts lacks, none otherwise. *)
Definition warnings (lo ut : IniSettings) (k : setting) : list str :=
  if present lo ut k then [] else [warning_chunk k].

(** The stream after more chunks were written to [stdout]. *)
Definition wrote (io : stdio) (chunks : list str) : stdio :=
  mkIO (stdout io ++ chunks) (stderr io).

(** The stream after more chunks were written to [stderr]. *)
Definition warned (io : stdio) (chunks : list str) : stdio :=
  mkIO (stdout io) (stderr io ++ chunks).

(** The loop of [main]. *)
Definition loop R (lo ut : IniSettings) (ks : list setting) : M unit :=
  for_each ks (process_setting R lo ut).

(** The line the [__main__] block prints for an exception. *)
Definition exception_chunk (e : exn) : str := str_of_exn e ++ "
".

(** What [escape] makes of one character. *)
Definition escape_char (c : ascii) : str :=
  if Ascii.eqb c ";" then "\;" else [c].

(** ** The reader of the protocol *)

Module Consumer.

(** Modelled from the spec: the reader of the output protocol (the CMake side
    that takes the list apart) is not part of these sources.  [push] puts a
    character in front of the first record of a list of records. *)
Definition push (c : ascii) (records : list str) : list str :=
  match records with
  | h :: r => (c :: h) :: r
  | [] => [[c]]
  end.

(** Modelled from the spec: the unescaping-aware reader of section 8, which
    is not part of these sources.  It splits the stream at every [;] that is
    not escaped and maps every [\;] back to [;]. *)
Fixpoint split_records (s : str) : list str :=
  match s with
  | [] => [[]]
  | c :: t =>
      if Ascii.eqb c ";" then [] :: split_records t
      else
        match t with
        | d :: t' =>
            if Ascii.eqb c "\" && Ascii.eqb d ";"
            then push ";" (split_records t')
            else push c (split_records t)
        | [] => push c (split_records t)
        end
  end.

(** Modelled from the spec: the unescaping of one value, [\;] back to [;],
    which is not part of these sources. *)
Fixpoint unescape (s : str) : str :=
  match s with
  | [] => []
  | c :: t =>
      match t with
      | d :: t' =>
          if Ascii.eqb c "\" && Ascii.eqb d ";"
          then ";"%char :: unescape t'
          else c :: unescape t
      | [] => [c]
      end
  end.

Definition push_str (pre : str) (records : list str) : list str :=
  match records with
  | h :: r => (pre ++ h) :: r
  | [] => [pre]
  end.

End Consumer.

Definition ends_with_backslash (v : str) : bool :=
  match rev v with
  | c :: _ => Ascii.eqb c "\"
  | [] => false
  end.

(** ** Example inputs *)

(** The example of the spec: [proj/settings.ini] resolves to
    [/home/u/proj/settings.ini]. *)
Definition example_ini : str := "proj/settings.ini".
Definition example_real : str := "/home/u/proj/settings.ini".
Definition example_rule : REMAPPING_t := [("/home/u/" : str, "" : str)].
Definition example_libraries : list str :=
  ["/home/u/proj/lib1" : str; "/home/u/proj/lib2" : str].


(** A dict that has the default options only, two of them. *)
Definition only_options : IniSettings := fun k =>
  match k with
  | default_cmake_options => Some ("A=1
B=2" : str)
  | _ => None
  end.

(** A dict that has all five settings; its default options have an empty
    line, a line with an empty key and a line without a value. *)
Definition example_settings : IniSettings := fun k =>
  match k return option (value k) with
  | framework_path => Some ("/home/u/fprime" : str)
  | project_root => Some ("/home/u/proj" : str)
  | library_locations => Some example_libraries
  | default_cmake_options => Some ("A=1

 B=x;y 
=z
VERBOSE" : str)
  | install_destination => Some ("/home/u/proj/build" : str)
  end.

(** The lines of a text of default options. *)
Definition example_lines : list str :=
  ["A=1" : str; "" : str; " B=x;y " : str; "=z" : str; "DIR=/home/u/d" : str].

(** A dict that has the framework path only. *)
Definition framework_at (path : str) : IniSettings := fun k =>
  match k with
  | framework_path => Some path
  | _ => None
  end.

(** ** Lemmas on the string built-ins *)

Lemma startswith_app (p s : str) : Py.startswith p (p ++ s) = true.
Proof.
  induction p as [|a p IH]; simpl; [reflexivity|].
  now rewrite Ascii.eqb_refl, IH.
Qed.

Lemma startswith_inv (p s : str) :
  Py.startswith p s = true -> exists r, s = p ++ r.
Proof.
  revert s; induction p as [|a p IH]; intros s H.
  - now exists s.
  - destruct s as [|b s]; simpl in H; [discriminate|].
    apply andb_true_iff in H as [Hab Hp].
    apply Ascii.eqb_eq in Hab; subst b.
    destruct (IH _ Hp) as [r ->]. now exists r.
Qed.

Lemma contains_startswith (p s : str) :
  Py.startswith p s = true -> Py.contains p s = true.
Proof.
  intros H. destruct s; cbn [Py.contains]; now rewrite H.
Qed.

Lemma contains_app (p a b : str) : Py.contains p (a ++ p ++ b) = true.
Proof.
  induction a as [|c a IH].
  - cbn [app]. apply contains_startswith, startswith_app.
  - change ((c :: a) ++ p ++ b) with (c :: (a ++ p ++ b)).
    cbn [Py.contains]. rewrite IH. apply orb_true_r.
Qed.

Lemma contains_inv (p s : str) :
  Py.contains p s = true -> exists a b, s = a ++ p ++ b.
Proof.
  induction s as [|c s IH]; simpl; intros H.
  - rewrite orb_false_r in H. destruct p; [|discriminate]. now exists [], [].
  - apply orb_true_iff in H as [H|H].
    + destruct (startswith_inv _ _ H) as [r Hr]. exists [], r. exact Hr.
    + destruct (IH H) as (a & b & ->). now exists (c :: a), b.
Qed.

Lemma replace_from_skip (old new a b : str) :
  Py.replace_from old new (List.length a) (a ++ b) = Py.replace_from old new 0 b.
Proof.
  induction a as [|c a IH]; simpl; [reflexivity | exact IH].
Qed.

Lemma replace_from_hit (old new r : str) :
  old <> [] ->
  Py.replace_from old new 0 (old ++ r) = new ++ Py.replace_from old new 0 r.
Proof.
  destruct old as [|c old]; [congruence | intros _].
  change ((c :: old) ++ r) with (c :: (old ++ r)).
  cbn [Py.replace_from].
  change (c :: old ++ r) with ((c :: old) ++ r).
  rewrite startswith_app.
  cbn [List.length]. rewrite Nat.sub_succ, Nat.sub_0_r.
  now rewrite replace_from_skip.
Qed.

Lemma replace_from_miss (old new : str) (c : ascii) (t : str) :
  Py.startswith old (c :: t) = false ->
  Py.replace_from old new 0 (c :: t) = c :: Py.replace_from old new 0 t.
Proof.
  intros H. cbn [Py.replace_from]. now rewrite H.
Qed.

(** A string that does not contain [old] is left as it is. *)
Lemma replace_absent (old new s : str) :
  old <> [] -> Py.contains old s = false -> Py.replace old new s = s.
Proof.
  intros Hold. destruct old as [|o old]; [congruence|].
  unfold Py.replace.
  induction s as [|c s IH]; intros H; [reflexivity|].
  cbn [Py.contains] in H. apply orb_false_iff in H as [H1 H2].
  rewrite replace_from_miss by exact H1.
  now rewrite IH.
Qed.

(** A string that contains [old] has [new] in the result. *)
Lemma replace_present (old new s : str) :
  Py.contains old s = true -> exists a b, Py.replace old new s = a ++ new ++ b.
Proof.
  destruct old as [|o old].
  - intros _. destruct s as [|c s]; simpl.
    + exists [], []. now rewrite app_nil_r.
    + now exists [], (c :: Py.interleave new s).
  - unfold Py.replace.
    induction s as [|c s IH]; intros H; [discriminate|].
    cbn [Py.contains] in H.
    destruct (Py.startswith (o :: old) (c :: s)) eqn:E.
    + destruct (startswith_inv _ _ E) as [r ->].
      rewrite replace_from_hit by discriminate.
      now exists [], (Py.replace_from (o :: old) new 0 r).
    + rewrite replace_from_miss by exact E.
      destruct (IH H) as (a & b & ->).
      now exists (c :: a), b.
Qed.

Lemma replace_empty_rule (s : str) : Py.replace [] [] s = s.
Proof.
  induction s as [|c s IH]; simpl; [reflexivity | now f_equal].
Qed.

(** ** Running the printing functions *)

Lemma wrote_nil (io : stdio) : wrote io [] = io.
Proof. destruct io; unfold wrote; simpl. now rewrite app_nil_r. Qed.

Lemma warned_nil (io : stdio) : warned io [] = io.
Proof. destruct io; unfold warned; simpl. now rewrite app_nil_r. Qed.

Lemma wrote_wrote (io : stdio) (a b : list str) :
  wrote (wrote io a) b = wrote io (a ++ b).
Proof. unfold wrote; simpl. now rewrite app_assoc. Qed.

Lemma warned_warned (io : stdio) (a b : list str) :
  warned (warned io a) b = warned io (a ++ b).
Proof. unfold warned; simpl. now rewrite app_assoc. Qed.

Lemma wrote_warned (io : stdio) (a b : list str) :
  wrote (warned io a) b = warned (wrote io b) a.
Proof. reflexivity. Qed.

Create Rewrite HintDb streams.
#[local] Hint Rewrite wrote_nil warned_nil wrote_warned wrote_wrote warned_warned : streams.

(** Runs a computation one step and tidies the streams. *)
Ltac run_step := unfold bind, ret; autorewrite with streams; try reflexivity.

Section Printing.

Variable R : REMAPPING_t.

Lemma print_setting_run (name text ending : str) (io : stdio) :
  print_setting R name text ending io
  = (wrote io [render R name text ending], inr tt).
Proof.
  unfold print_setting, print, render, wrote.
  now rewrite <- !app_assoc.
Qed.

Lemma print_list_item_run (item : str) (io : stdio) :
  print_list_item R item io = (wrote io (line_records R item), inr tt).
Proof.
  unfold print_list_item, line_records.
  destruct (fst (Py.split1 "=" (Py.strip item))).
  - run_step.
  - destruct (snd (Py.split1 "=" (Py.strip item))); apply print_setting_run.
Qed.

Lemma print_list_settings_run (items : list str) (io : stdio) :
  print_list_settings R items io
  = (wrote io (flat_map (line_records R) items), inr tt).
Proof.
  unfold print_list_settings. revert io.
  induction items as [|item items IH]; intros io; cbn [for_each flat_map].
  - run_step.
  - unfold bind. rewrite print_list_item_run, IH. run_step.
Qed.

(** A handler writes its records and returns. *)
Lemma handler_run (k : setting) (v : value k) (io : stdio) :
  handler R k v io = (wrote io (emitted R k v), inr tt).
Proof.
  destruct k; cbn [handler emitted];
    first [apply print_setting_run | apply print_list_settings_run].
Qed.

End Printing.

Lemma value_eqb_eq (k : setting) (v u : value k) :
  value_eqb k v u = true <-> v = u.
Proof.
  destruct k; cbn [value_eqb value] in *; unfold str_eqb, list_str_eqb;
    match goal with |- context [list_eq_dec ?d ?a ?b] => destruct (list_eq_dec d a b) end;
    split; congruence.
Qed.

(** ** The loop of [main] *)

Section Loop.

Variable R : REMAPPING_t.
Variables lo ut : IniSettings.

(** One turn of the loop. *)
Lemma process_setting_run (k : setting) (io : stdio) :
  process_setting R lo ut k io
  = if consistent lo ut k
    then (warned (wrote io (block R lo ut k)) (warnings lo ut k), inr tt)
    else (io, inl (AssertionError assert_msg)).
Proof.
  unfold process_setting, try_except_KeyError, bind, getitem, consistent,
    block, warnings, present.
  destruct (lo k) as [v|] eqn:Hlo; [destruct (ut k) as [u|] eqn:Hut|].
  - unfold ret at 1 2. unfold assert.
    destruct (value_eqb k v u); unfold ret, raise; [|reflexivity].
    rewrite handler_run. now autorewrite with streams.
  - unfold ret, raise. now autorewrite with streams.
  - unfold raise. now autorewrite with streams.
Qed.

(** The loop over settings that are all consistent. *)
Lemma loop_consistent (ks : list setting) (io : stdio) :
  forallb (consistent lo ut) ks = true ->
  loop R lo ut ks io
  = (warned (wrote io (flat_map (block R lo ut) ks))
       (flat_map (warnings lo ut) ks), inr tt).
Proof.
  unfold loop. revert io.
  induction ks as [|k ks IH]; intros io H; cbn [for_each flat_map].
  - run_step.
  - cbn [forallb] in H. apply andb_true_iff in H as [Hk Hks].
    unfold bind. rewrite process_setting_run, Hk, (IH _ Hks). run_step.
Qed.

(** The loop stops at the first setting that is not consistent. *)
Lemma loop_abort (before : list setting) (k : setting) (after : list setting)
    (io : stdio) :
  forallb (consistent lo ut) before = true ->
  consistent lo ut k = false ->
  loop R lo ut (before ++ k :: after) io
  = (warned (wrote io (flat_map (block R lo ut) before))
       (flat_map (warnings lo ut) before), inl (AssertionError assert_msg)).
Proof.
  unfold loop. revert io.
  induction before as [|b before IH]; intros io Hb Hk; cbn [app for_each flat_map].
  - unfold bind. rewrite process_setting_run, Hk. run_step.
  - cbn [forallb] in Hb. apply andb_true_iff in Hb as [Hb1 Hb2].
    unfold bind. rewrite process_setting_run, Hb1.
    fold (for_each (before ++ k :: after) (process_setting R lo ut)).
    rewrite (IH _ Hb2 Hk). run_step.
Qed.

(** The first inconsistent setting of a list that has one. *)
Lemma first_inconsistent (ks : list setting) (k : setting) :
  In k ks -> consistent lo ut k = false ->
  exists before j after,
    ks = before ++ j :: after
    /\ forallb (consistent lo ut) before = true
    /\ consistent lo ut j = false
    /\ In k (j :: after).
Proof.
  induction ks as [|x ks IH]; intros Hin Hk; [contradiction|].
  destruct (consistent lo ut x) eqn:Hx.
  - destruct Hin as [->|Hin]; [congruence|].
    destruct (IH Hin Hk) as (before & j & after & -> & Hb & Hj & Hkj).
    exists (x :: before), j, after. cbn [forallb app]. rewrite Hx, Hb. auto.
  - exists [], x, ks. auto.
Qed.

(** A setting that one of the dicts lacks is consistent, not present and has
    no records. *)
Lemma missing_setting (k : setting) :
  lo k = None \/ ut k = None ->
  consistent lo ut k = true /\ present lo ut k = false /\ block R lo ut k = [].
Proof.
  unfold consistent, present, block.
  intros [H|H]; rewrite H; [|destruct (lo k)]; repeat split.
Qed.

End Loop.

Lemma all_settings_needed (k : setting) : In k CMAKE_NEEDED_SETTINGS.
Proof. destruct k; simpl; auto 6. Qed.

(** A run in which every setting is consistent. *)
Lemma script_consistent (ini real : str) (lo ut : IniSettings) :
  forallb (consistent lo ut) CMAKE_NEEDED_SETTINGS = true ->
  let R := [remapping_rule ini real] in
  script ini real lo ut
  = mkProcess
      (flat_map (block R lo ut) CMAKE_NEEDED_SETTINGS
         ++ [render R "FPRIME_SETTINGS_FILE" ini ""])
      (flat_map (warnings lo ut) CMAKE_NEEDED_SETTINGS)
      0.
Proof.
  intros H R. unfold script, main. fold R.
  fold (loop R lo ut CMAKE_NEEDED_SETTINGS).
  unfold bind. rewrite (loop_consistent R lo ut _ _ H), print_setting_run.
  unfold ret. reflexivity.
Qed.

(** A run that meets an inconsistent setting. *)
Lemma script_abort (ini real : str) (lo ut : IniSettings)
    (before : list setting) (k : setting) (after : list setting) :
  CMAKE_NEEDED_SETTINGS = before ++ k :: after ->
  forallb (consistent lo ut) before = true ->
  consistent lo ut k = false ->
  let R := [remapping_rule ini real] in
  script ini real lo ut
  = mkProcess
      (flat_map (block R lo ut) before)
      (flat_map (warnings lo ut) before ++ [exception_chunk (AssertionError assert_msg)])
      1.
Proof.
  intros E Hb Hk R. unfold script, main. fold R.
  fold (loop R lo ut CMAKE_NEEDED_SETTINGS). rewrite E.
  unfold bind. rewrite (loop_abort R lo ut _ _ _ _ Hb Hk).
  reflexivity.
Qed.

Lemma forallb_false {A} (f : A -> bool) (l : list A) :
  forallb f l = false -> exists x, In x l /\ f x = false.
Proof.
  induction l as [|a l IH]; cbn [forallb]; intros H; [discriminate|].
  destruct (f a) eqn:Ha.
  - destruct (IH H) as (x & Hx & Hfx). exists x. split; [now right | exact Hfx].
  - exists a. split; [now left | exact Ha].
Qed.

(** The status is 0 only when every setting is consistent. *)
Lemma script_status_0 (ini real : str) (lo ut : IniSettings) :
  status (script ini real lo ut) = 0%Z ->
  forallb (consistent lo ut) CMAKE_NEEDED_SETTINGS = true.
Proof.
  intros H0.
  destruct (forallb (consistent lo ut) CMAKE_NEEDED_SETTINGS) eqn:E; [reflexivity|].
  destruct (forallb_false _ _ E) as (k & Hin & Hk).
  destruct (first_inconsistent lo ut _ k Hin Hk) as (before & j & after & Hs & Hb & Hj & _).
  rewrite (script_abort ini real lo ut before j after Hs Hb Hj) in H0.
  discriminate.
Qed.

(** Dicts that agree wherever both have a value are consistent throughout. *)
Lemma agree_consistent (lo ut : IniSettings) (ks : list setting) :
  (forall k (v u : value k), lo k = Some v -> ut k = Some u -> v = u) ->
  forallb (consistent lo ut) ks = true.
Proof.
  intros H. apply forallb_forall. intros k _. unfold consistent.
  destruct (lo k) as [v|] eqn:Hv; [|reflexivity].
  destruct (ut k) as [u|] eqn:Hu; [|reflexivity].
  apply value_eqb_eq. now apply H.
Qed.

Lemma differ_inconsistent (lo ut : IniSettings) (k : setting) (v u : value k) :
  lo k = Some v -> ut k = Some u -> v <> u -> consistent lo ut k = false.
Proof.
  intros Hv Hu Hne. unfold consistent. rewrite Hv, Hu.
  destruct (value_eqb k v u) eqn:E; [|reflexivity].
  apply value_eqb_eq in E. contradiction.
Qed.

(** ** Escaping *)

Lemma escape_cons (c : ascii) (t : str) : escape (c :: t) = escape_char c ++ escape t.
Proof.
  unfold escape, escape_char, Py.replace.
  cbn [String.list_ascii_of_string Py.replace_from Py.startswith List.length Nat.sub].
  rewrite (Ascii.eqb_sym ";" c).
  destruct (Ascii.eqb c ";"); reflexivity.
Qed.

(** Every [;] becomes the two characters [\;] and nothing else changes. *)
Lemma escape_flat_map (v : str) : escape v = flat_map escape_char v.
Proof.
  induction v as [|c t IH]; [reflexivity|].
  rewrite escape_cons, IH. reflexivity.
Qed.

Lemma escape_app (a b : str) : escape (a ++ b) = escape a ++ escape b.
Proof. rewrite !escape_flat_map. apply flat_map_app. Qed.

Lemma escape_join (items : list str) :
  escape (Py.join ";" items) = Py.join "\;" (map escape items).
Proof.
  induction items as [|x rest IH]; [reflexivity|].
  destruct rest as [|y rest]; [reflexivity|].
  change (Py.join ";" (x :: y :: rest)) with (x ++ ";" ++ Py.join ";" (y :: rest)).
  change (map escape (x :: y :: rest)) with (escape x :: map escape (y :: rest)).
  change (Py.join "\;" (escape x :: map escape (y :: rest)))
    with (escape x ++ "\;" ++ Py.join "\;" (map escape (y :: rest))).
  rewrite !escape_app, IH. reflexivity.
Qed.

Lemma escape_absent (v : str) : Py.contains ";" v = false -> escape v = v.
Proof. intros H. apply replace_absent; [discriminate | exact H]. Qed.

(** ** The remapping rule *)

Lemma commonprefix_split (a b : str) :
  exists a' b',
    a = Py.commonprefix a b ++ a'
    /\ b = Py.commonprefix a b ++ b'
    /\ forall c x y, a' = c :: x -> b' = c :: y -> False.
Proof.
  revert b; induction a as [|x a IH]; intros b.
  - exists [], b. repeat split; intros; discriminate.
  - destruct b as [|y b].
    + exists (x :: a), []. repeat split; intros; discriminate.
    + cbn [Py.commonprefix]. destruct (Ascii.eqb_spec x y) as [->|Hxy].
      * destruct (IH b) as (a' & b' & Ha & Hb & Hdiff).
        exists a', b'. cbn [app]. repeat split; try congruence. exact Hdiff.
      * exists (x :: a), (y :: b). repeat split. intros c u v Hu Hv.
        congruence.
Qed.

Lemma common_suffix_split (ini real : str) :
  exists G P,
    ini = G ++ common_suffix ini real
    /\ real = P ++ common_suffix ini real
    /\ forall c g p, G = g ++ [c] -> P = p ++ [c] -> False.
Proof.
  unfold common_suffix, Py.reversed.
  destruct (commonprefix_split (rev ini) (rev real)) as (a' & b' & Ha & Hb & Hdiff).
  exists (rev a'), (rev b'). repeat split.
  - rewrite <- rev_app_distr, <- Ha. now rewrite rev_involutive.
  - rewrite <- rev_app_distr, <- Hb. now rewrite rev_involutive.
  - intros c g p Hg Hp.
    apply (Hdiff c (rev g) (rev p)).
    + rewrite <- (rev_involutive a'), Hg, rev_app_distr. reflexivity.
    + rewrite <- (rev_involutive b'), Hp, rev_app_distr. reflexivity.
Qed.

Lemma slice_to_neg_app (a b : str) :
  b <> [] -> Py.slice_to_neg (a ++ b) (List.length b) = a.
Proof.
  intros Hb. unfold Py.slice_to_neg.
  destruct (List.length b) eqn:E.
  - destruct b; [congruence | discriminate].
  - rewrite <- E, length_app, Nat.add_sub.
    rewrite firstn_app, Nat.sub_diag, firstn_all. cbn [firstn]. apply app_nil_r.
Qed.

Lemma ends_with_backslash_cons (c d : ascii) (t : str) :
  ends_with_backslash (c :: d :: t) = ends_with_backslash (d :: t).
Proof.
  unfold ends_with_backslash. cbn [rev].
  destruct (rev t); reflexivity.
Qed.

(** An escaped value never starts with a bare [;]. *)
Lemma escape_head (t : str) :
  match escape t with
  | d :: _ => Ascii.eqb d ";" = false
  | [] => True
  end.
Proof.
  destruct t as [|c t]; [exact I|].
  rewrite escape_cons. unfold escape_char.
  destruct (Ascii.eqb c ";") eqn:E; cbn; [reflexivity | exact E].
Qed.

Lemma unescape_escape (v : str) : Consumer.unescape (escape v) = v.
Proof.
  induction v as [|c t IH]; [reflexivity|].
  rewrite escape_cons. unfold escape_char.
  destruct (Ascii.eqb c ";") eqn:E.
  - apply Ascii.eqb_eq in E; subst c.
    change (Consumer.unescape ("\;" ++ escape t))
      with (";"%char :: Consumer.unescape (escape t)).
    now rewrite IH.
  - cbn [app Consumer.unescape].
    pose proof (escape_head t) as Hh.
    destruct (escape t) as [|d r] eqn:Et.
    + destruct t as [|x t]; [reflexivity|].
      rewrite escape_cons in Et. unfold escape_char in Et.
      destruct (Ascii.eqb x ";"); discriminate.
    + rewrite Hh, andb_false_r. now rewrite IH.
Qed.

Lemma escape_injective (v w : str) : escape v = escape w -> v = w.
Proof.
  intros H. rewrite <- (unescape_escape v), <- (unescape_escape w). now rewrite H.
Qed.

(** The reader gets a value back from its record when the value does not
    end in a backslash. *)
Lemma split_records_value (v rest : str) :
  ends_with_backslash v = false ->
  Consumer.split_records (escape v ++ ";" ++ rest)
  = v :: Consumer.split_records rest.
Proof.
  induction v as [|c t IH]; intros Hv.
  - cbn. reflexivity.
  - assert (Ht : ends_with_backslash t = false).
    { destruct t as [|d t]; [reflexivity|]. now rewrite ends_with_backslash_cons in Hv. }
    specialize (IH Ht).
    rewrite escape_cons. unfold escape_char.
    destruct (Ascii.eqb c ";") eqn:E.
    + apply Ascii.eqb_eq in E; subst c.
      change (Consumer.split_records (("\;" ++ escape t) ++ ";" ++ rest))
        with (Consumer.push ";" (Consumer.split_records (escape t ++ ";" ++ rest))).
      rewrite IH. reflexivity.
    + cbn [app Consumer.split_records]. rewrite E.
      change (escape t ++ ";"%char :: rest) with (escape t ++ ";" ++ rest) in *.
      pose proof (escape_head t) as Hh.
      destruct (escape t) as [|d r] eqn:Et.
      * destruct t as [|x t].
        -- unfold ends_with_backslash in Hv. cbn in Hv.
           cbn [app String.list_ascii_of_string]. rewrite Hv. cbn [andb].
           cbn [app String.list_ascii_of_string] in IH. rewrite IH. reflexivity.
        -- rewrite escape_cons in Et. unfold escape_char in Et.
           destruct (Ascii.eqb x ";"); discriminate.
      * cbn [app]. rewrite Hh, andb_false_r.
        cbn [app] in IH. rewrite IH. reflexivity.
Qed.

Lemma split_records_prefix (name s : str) :
  ~ In ";"%char name ->
  match s with d :: _ => Ascii.eqb d ";" = false | [] => True end ->
  Consumer.split_records (name ++ s)
  = Consumer.push_str name (Consumer.split_records s).
Proof.
  induction name as [|x n IH]; intros Hname Hs.
  - cbn [app]. destruct (Consumer.split_records s) eqn:E; [|reflexivity].
    destruct s as [|c t]; [discriminate|]. cbn in E.
    destruct (Ascii.eqb c ";"); [discriminate|].
    destruct t as [|d t']; [destruct (Consumer.split_records []); discriminate|].
    destruct (Ascii.eqb c "\" && Ascii.eqb d ";");
      [destruct (Consumer.split_records t') | destruct (Consumer.split_records (d :: t'))];
      discriminate.
  - assert (Hx : Ascii.eqb x ";" = false).
    { apply Ascii.eqb_neq. intros ->. apply Hname. now left. }
    assert (Hn : ~ In ";"%char n) by (intros H; apply Hname; now right).
    specialize (IH Hn Hs).
    cbn [app Consumer.split_records]. rewrite Hx.
    assert (Hd : match n ++ s with d :: _ => Ascii.eqb d ";" = false | [] => True end).
    { destruct n as [|y n]; [exact Hs|]. cbn [app].
      apply Ascii.eqb_neq. intros ->. apply Hn. now left. }
    destruct (n ++ s) as [|d t'] eqn:E.
    + rewrite IH. destruct (Consumer.split_records s); reflexivity.
    + rewrite Hd, andb_false_r, IH.
      destruct (Consumer.split_records s); reflexivity.
Qed.

(** ** More lemmas on the built-ins *)

Lemma replace_prefix (P G rest : str) :
  P <> [] -> Py.contains P rest = false -> Py.replace P G (P ++ rest) = G ++ rest.
Proof.
  intros HP Hrest.
  pose proof (replace_absent P G rest HP Hrest) as Habs.
  destruct P as [|c P]; [congruence|]. unfold Py.replace in *.
  rewrite replace_from_hit by discriminate. now rewrite Habs.
Qed.

Lemma consistent_agree (lo ut : IniSettings) :
  forallb (consistent lo ut) CMAKE_NEEDED_SETTINGS = true ->
  forall k (v u : value k), lo k = Some v -> ut k = Some u -> v = u.
Proof.
  intros H k v u Hv Hu. rewrite forallb_forall in H.
  specialize (H k (all_settings_needed k)). unfold consistent in H.
  rewrite Hv, Hu in H. now apply value_eqb_eq.
Qed.

Lemma split1_no_separator (sep : ascii) (s : str) :
  ~ In sep s -> Py.split1 sep s = (s, None).
Proof.
  induction s as [|c s IH]; intros H; [reflexivity|].
  cbn [Py.split1]. destruct (Ascii.eqb_spec c sep) as [->|Hc].
  - exfalso. apply H. now left.
  - rewrite IH; [reflexivity|]. intros Hin. apply H. now right.
Qed.

Lemma lstrip_all_space (s : str) : forallb Py.isspace s = true -> Py.lstrip s = [].
Proof.
  induction s as [|c s IH]; [reflexivity|].
  cbn [forallb Py.lstrip]. intros H. apply andb_true_iff in H as [Hc Hs].
  rewrite Hc. now apply IH.
Qed.

Lemma strip_all_space (s : str) : forallb Py.isspace s = true -> Py.strip s = [].
Proof.
  intros H. unfold Py.strip. now rewrite (lstrip_all_space s H).
Qed.

Lemma split_not_nil (sep : ascii) (s : str) : Py.split sep s <> [].
Proof.
  destruct s as [|c s]; cbn [Py.split]; [discriminate|].
  destruct (Ascii.eqb c sep); [discriminate|].
  destruct (Py.split sep s); discriminate.
Qed.

Lemma split_items_chars (sep : ascii) (s item : str) (c : ascii) :
  In item (Py.split sep s) -> In c item -> In c s.
Proof.
  revert item; induction s as [|x s IH]; intros item Hitem Hc.
  - destruct Hitem as [<-|[]]. contradiction.
  - cbn [Py.split] in Hitem. destruct (Ascii.eqb x sep).
    + destruct Hitem as [<-|Hitem]; [contradiction|].
      right. now apply (IH item).
    + destruct (Py.split sep s) as [|h r] eqn:E.
      * destruct Hitem as [<-|[]]. destruct Hc as [->|[]]. now left.
      * destruct Hitem as [<-|Hitem].
        -- destruct Hc as [->|Hc]; [now left|].
           right. apply (IH h); [now left | exact Hc].
        -- right. apply (IH item); [now right | exact Hc].
Qed.

Lemma split_app (sep : ascii) (a b : str) :
  Py.split sep (a ++ sep :: b) = Py.split sep a ++ Py.split sep b.
Proof.
  induction a as [|c a IH]; cbn [app Py.split].
  - now rewrite Ascii.eqb_refl.
  - destruct (Ascii.eqb c sep); [now rewrite IH|].
    rewrite IH. pose proof (split_not_nil sep a) as Hne.
    destruct (Py.split sep a); [congruence | reflexivity].
Qed.

Lemma lstrip_app_space (w s : str) :
  forallb Py.isspace w = true -> Py.lstrip (w ++ s) = Py.lstrip s.
Proof.
  induction w as [|c w IH]; [reflexivity|].
  cbn [forallb app Py.lstrip]. intros H. apply andb_true_iff in H as [Hc Hw].
  rewrite Hc. now apply IH.
Qed.

Lemma forallb_rev {A} (f : A -> bool) (l : list A) :
  forallb f l = true -> forallb f (rev l) = true.
Proof.
  rewrite !forallb_forall. intros H x Hx. apply H. now apply in_rev.
Qed.

Lemma rstrip_app_space (s w : str) :
  forallb Py.isspace w = true -> Py.rstrip (s ++ w) = Py.rstrip s.
Proof.
  intros H. unfold Py.rstrip.
  now rewrite rev_app_distr, (lstrip_app_space _ _ (forallb_rev _ _ H)).
Qed.

Lemma lstrip_app (s w : str) :
  Py.lstrip (s ++ w)
  = match Py.lstrip s with
    | [] => Py.lstrip w
    | c :: l => (c :: l) ++ w
    end.
Proof.
  induction s as [|c s IH]; [reflexivity|].
  cbn [app Py.lstrip]. destruct (Py.isspace c); [exact IH | reflexivity].
Qed.

Lemma strip_surrounding_space (w1 s w2 : str) :
  forallb Py.isspace w1 = true -> forallb Py.isspace w2 = true ->
  Py.strip (w1 ++ s ++ w2) = Py.strip s.
Proof.
  intros H1 H2. unfold Py.strip.
  rewrite (lstrip_app_space w1 _ H1), lstrip_app.
  destruct (Py.lstrip s) as [|c l].
  - now rewrite (lstrip_all_space w2 H2).
  - now apply rstrip_app_space.
Qed.

Lemma split_no_separator (sep : ascii) (s : str) :
  ~ In sep s -> Py.split sep s = [s].
Proof.
  induction s as [|c s IH]; intros H; [reflexivity|].
  cbn [Py.split]. destruct (Ascii.eqb_spec c sep) as [->|Hc].
  - exfalso. apply H. now left.
  - rewrite IH; [reflexivity|]. intros Hin. apply H. now right.
Qed.

(** Splitting undoes joining, for lines that have no separator in them. *)
Lemma split_join (sep : ascii) (lines : list str) :
  lines <> [] -> (forall l, In l lines -> ~ In sep l) ->
  Py.split sep (Py.join [sep] lines) = lines.
Proof.
  induction lines as [|x rest IH]; intros Hne Hsep; [congruence|].
  destruct rest as [|y rest].
  - cbn [Py.join]. apply split_no_separator, Hsep. now left.
  - change (Py.join [sep] (x :: y :: rest))
      with (x ++ sep :: Py.join [sep] (y :: rest)).
    rewrite split_app, split_no_separator by (apply Hsep; now left).
    rewrite IH; [reflexivity | discriminate |].
    intros l Hl. apply Hsep. now right.
Qed.

(** In an escaped value every [;] has a backslash in front of it. *)
Lemma escaped_semicolon (v a b : str) :
  escape v = a ++ ";"%char :: b -> exists a', a = a' ++ ["\"%char].
Proof.
  revert a; induction v as [|c t IH]; intros a H.
  - destruct a; discriminate.
  - rewrite escape_cons in H. unfold escape_char in H.
    destruct (Ascii.eqb c ";") eqn:E.
    + cbn [String.list_ascii_of_string app] in H.
      destruct a as [|x [|y a2]]; cbn [app] in H.
      * discriminate.
      * injection H as Hx _. subst x. now exists [].
      * injection H as Hx Hy Ht. subst x y.
        destruct (IH _ Ht) as [a' ->]. now exists ("\"%char :: ";"%char :: a').
    + cbn [app] in H. destruct a as [|x a2]; cbn [app] in H.
      * injection H as Hc _. subst c. discriminate.
      * injection H as Hx Ht. subst x.
        destruct (IH _ Ht) as [a' ->]. now exists (c :: a').
Qed.

(** A string with a [;] that has no backslash in front of it is in no
    escaped value. *)
Lemma bare_semicolon_absent (x y : str) (c : ascii) (text : str) :
  c <> "\"%char -> Py.contains (x ++ c :: ";"%char :: y) (escape text) = false.
Proof.
  intros Hc.
  destruct (Py.contains (x ++ c :: ";"%char :: y) (escape text)) eqn:E; [|reflexivity].
  destruct (contains_inv _ _ E) as (a & b & Hab).
  replace (a ++ (x ++ c :: ";"%char :: y) ++ b)
    with ((a ++ x ++ [c]) ++ ";"%char :: (y ++ b)) in Hab
    by (now rewrite <- !app_assoc).
  destruct (escaped_semicolon _ _ _ Hab) as [a' Ha'].
  rewrite !app_assoc in Ha'. apply app_inj_tail in Ha' as [_ Ha']. congruence.
Qed.






(** ** The remapping rule of the example *)

Lemma example_rule_derived :
  [remapping_rule example_ini example_real] = example_rule.
Proof. reflexivity. Qed.

(** ** Library locations *)

Lemma C3_unescaped_join_fails :
  stdout (fst (handler example_rule library_locations example_libraries (mkIO [] [])))
  <> ["FPRIME_LIBRARY_LOCATIONS=proj/lib1;proj/lib2;" : str].
Proof. vm_compute. discriminate. Qed.

(** C3, as the code has it: the handler of [library_locations] writes one
    record; its value is the list joined with [;], and the separators are
    escaped like every other [;] of a value, so the elements arrive escaped
    one by one and joined with [\;].  With the rule of the example the two
    libraries are written as [FPRIME_LIBRARY_LOCATIONS=proj/lib1\;proj/lib2;]. *)
Theorem C3_library_locations_record :
  (forall R (items : list str) io,
      handler R library_locations items io
      = (wrote io ["FPRIME_LIBRARY_LOCATIONS" ++ "="
                     ++ apply_remapping R (Py.join "\;" (map escape items)) ++ ";"],
         inr tt))
  /\ [remapping_rule example_ini example_real] = [("/home/u/" : str, "" : str)]
  /\ stdout (fst (handler example_rule library_locations example_libraries (mkIO [] [])))
     = ["FPRIME_LIBRARY_LOCATIONS=proj/lib1\;proj/lib2;" : str].
Proof.
  split; [|split; reflexivity].
  intros R items io. rewrite handler_run. cbn [emitted]. unfold render.
  now rewrite escape_join.
Qed.

(** ** Derivation of the rule *)

(** C5: the common suffix is the reversed longest common prefix of the two
    reversed paths, and it is the longest common suffix: both paths end in
    it and what is in front of it ends differently.  When it is not empty
    the rule replaces the rest of the resolved path by the rest of the given
    path; when it is empty the rule replaces the empty string by the empty
    string, which changes no value. *)
Theorem C5_rule_from_common_suffix (ini real : str) :
  let S := common_suffix ini real in
  S = rev (Py.commonprefix (rev ini) (rev real))
  /\ (exists G P,
        ini = G ++ S /\ real = P ++ S
        /\ (forall c g p, G = g ++ [c] -> P = p ++ [c] -> False)
        /\ (S <> [] -> remapping_rule ini real = (P, G)))
  /\ (S = [] -> remapping_rule ini real = ([], []))
  /\ (forall v, apply_remapping [([], [])] v = v).
Proof.
  intros S. split; [reflexivity|]. split; [|split].
  - destruct (common_suffix_split ini real) as (G & P & Hi & Hr & Hdiff).
    fold S in Hi, Hr.
    exists G, P. repeat split; try assumption.
    intros HS. unfold remapping_rule. fold S.
    rewrite Hr at 1. rewrite Hi at 1.
    now rewrite !slice_to_neg_app.
  - intros HS. unfold remapping_rule. fold S. rewrite HS. reflexivity.
  - intros v. cbn [apply_remapping]. apply replace_empty_rule.
Qed.

Lemma C5_witness :
  remapping_rule "settings.ini" "/home/u/defaults.txt" = ([], []).
Proof.
  apply (C5_rule_from_common_suffix "settings.ini" "/home/u/defaults.txt").
  reflexivity.
Defined.

(** ** Applying the rule twice *)

Lemma C8_second_application_changes :
  let R := [remapping_rule example_ini example_real] in
  let v : str := "/home/home/u//u/x" in
  Py.contains (fst (remapping_rule example_ini example_real)) v = true
  /\ apply_remapping R v = "/home/u/x"
  /\ apply_remapping R (apply_remapping R v) = "x"
  /\ apply_remapping R (apply_remapping R v) <> apply_remapping R v.
Proof. repeat split. vm_compute. discriminate. Qed.

(** C8, as the code has it: a second application of the derived rule changes
    nothing when the value remapped once no longer contains the resolved
    prefix, and when the rule is the empty one. *)
Theorem C8_remapping_twice (ini real v : str) :
  let R := [remapping_rule ini real] in
  let P := fst (remapping_rule ini real) in
  let G := snd (remapping_rule ini real) in
  (P = [] /\ G = []) \/ (P <> [] /\ Py.contains P (apply_remapping R v) = false) ->
  apply_remapping R (apply_remapping R v) = apply_remapping R v.
Proof.
  intros R P G H. subst R. cbn [apply_remapping] in *.
  destruct (remapping_rule ini real) as [P0 G0]. cbn [fst snd] in *. subst P G.
  destruct H as [[-> ->] | [HP Habs]].
  - now rewrite !replace_empty_rule.
  - now apply replace_absent.
Qed.

Lemma C8_witness :
  apply_remapping [remapping_rule example_ini example_real]
    (apply_remapping [remapping_rule example_ini example_real] "/home/u/proj/lib1")
  = apply_remapping [remapping_rule example_ini example_real] "/home/u/proj/lib1".
Proof.
  apply (C8_remapping_twice example_ini example_real "/home/u/proj/lib1").
  right. split; [discriminate | reflexivity].
Defined.

(** ** Escaping comes first *)

(** C10: every record is written by [print_setting], which escapes the value
    and then remaps the escaped text.  So the rule sees the escaped text: a
    resolved prefix with a [;] that has no backslash in front of it is never
    found.  And what the rule puts in is not escaped: wherever the escaped
    value contains the resolved prefix, the given prefix stands in the
    output as it is, its [;] bare, next to the escaped rest of the value.
    The same holds for the last record. *)
Theorem C10_escape_before_remap (P G : str) :
  let esc := fun c : ascii => if Ascii.eqb c ";" then "\;" : str else [c] in
  (forall name text ending io,
      print_setting [(P, G)] name text ending io
      = (wrote io [name ++ "=" ++ Py.replace P G (flat_map esc text) ++ ending],
         inr tt))
  /\ (forall text,
        Py.contains P (flat_map esc text) = true ->
        exists a b, Py.replace P G (flat_map esc text) = a ++ G ++ b)
  /\ (forall name rest ending io,
        P <> [] -> Py.contains ";" P = false ->
        Py.contains P (flat_map esc rest) = false ->
        print_setting [(P, G)] name (P ++ rest) ending io
        = (wrote io [name ++ "=" ++ G ++ flat_map esc rest ++ ending], inr tt))
  /\ (forall x c y name text ending io,
        P = x ++ c :: ";"%char :: y -> c <> "\"%char ->
        print_setting [(P, G)] name text ending io
        = (wrote io [name ++ "=" ++ flat_map esc text ++ ending], inr tt))
  /\ (forall k v io,
        exists records,
          handler [(P, G)] k v io = (wrote io records, inr tt)
          /\ forall c, In c records ->
               exists name text,
                 c = name ++ "=" ++ Py.replace P G (flat_map esc text) ++ ";")
  /\ (forall ini real lo ut,
        remapping_rule ini real = (P, G) ->
        status (script ini real lo ut) = 0%Z ->
        last (out (script ini real lo ut)) []
        = "FPRIME_SETTINGS_FILE" ++ "=" ++ Py.replace P G (flat_map esc ini)).
Proof.
  intros esc.
  assert (Hesc : forall v, flat_map esc v = escape v).
  { intros v. symmetry. apply escape_flat_map. }
  split; [|split; [|split; [|split; [|split]]]].
  - intros. rewrite print_setting_run, Hesc. reflexivity.
  - intros text H. rewrite Hesc in *. now apply replace_present.
  - intros name rest ending io HP Hsemi Hrest.
    rewrite print_setting_run. unfold render. cbn [apply_remapping].
    rewrite Hesc in *.
    rewrite escape_app, (escape_absent P Hsemi), (replace_prefix P G _ HP Hrest).
    now rewrite <- app_assoc.
  - intros x c y name text ending io -> Hc.
    rewrite print_setting_run. unfold render. cbn [apply_remapping].
    rewrite Hesc, replace_absent; [reflexivity | now destruct x |].
    now apply bare_semicolon_absent.
  - intros k v io. exists (emitted [(P, G)] k v). split; [apply handler_run|].
    intros c Hc.
    destruct k; cbn [emitted] in Hc;
      try (destruct Hc as [<-|[]]; eexists _, _; rewrite Hesc; reflexivity).
    apply in_flat_map in Hc as (item & _ & Hc).
    unfold line_records in Hc.
    destruct (fst (Py.split1 "=" (Py.strip item))) as [|x key]; [contradiction|].
    destruct (snd (Py.split1 "=" (Py.strip item)));
      destruct Hc as [<-|[]]; eexists _, _; rewrite Hesc; reflexivity.
  - intros ini real lo ut Hrule H0.
    rewrite (script_consistent ini real lo ut (script_status_0 _ _ _ _ H0)).
    cbn [out]. rewrite last_last, Hrule, Hesc. unfold render. cbn [apply_remapping].
    now rewrite app_nil_r.
Qed.

Lemma C10_witness :
  print_setting [("/home/u/" : str, "a;b/" : str)] "FPRIME_PROJECT_ROOT"
    ("/home/u/" ++ "x;y") ";" (mkIO [] [])
  = (wrote (mkIO [] []) ["FPRIME_PROJECT_ROOT=a;b/x\;y;" : str], inr tt).
Proof.
  destruct (C10_escape_before_remap "/home/u/" "a;b/") as (_ & _ & H & _).
  apply (H "FPRIME_PROJECT_ROOT" "x;y" ";" (mkIO [] [])).
  - discriminate.
  - reflexivity.
  - reflexivity.
Defined.

(** ** Round trip of a value *)

Lemma C6_backslash_swallows_delimiter :
  let io :=
    fst ((print_setting example_rule "K" "a;b\" ";" ;;
          print_setting example_rule "N" "1" ";") (mkIO [] [])) in
  let stream := concat (stdout io) in
  stdout io = ["K=a\;b\;" : str; "N=1;" : str]
  /\ Consumer.split_records stream = ["K=a;b;N=1" : str; "" : str]
  /\ ~ In ("K=a;b\" : str) (Consumer.split_records stream).
Proof.
  repeat split. vm_compute. intros [H|[H|[]]]; discriminate.
Qed.

(** C6, as the code has it: in the value of a record every [;] is replaced
    by [\;] and nothing else, which loses nothing: unescaping gives the
    value back, for all values.  A reader that splits at the [;] that are
    not escaped finds the record of a value, and the value in it, when the
    value does not end in a backslash and the remapping leaves the escaped
    value as it is (the name of the record has no [;]). *)
Theorem C6_escape_round_trip (R : REMAPPING_t) (name v rest : str) :
  escape v = flat_map (fun c => if Ascii.eqb c ";" then "\;" : str else [c]) v
  /\ Consumer.unescape (escape v) = v
  /\ (forall w, escape w = escape v -> w = v)
  /\ (~ In ";"%char name ->
      ends_with_backslash v = false ->
      apply_remapping R (escape v) = escape v ->
      (forall io,
          print_setting R name v ";" io
          = (wrote io [name ++ "=" ++ escape v ++ ";"], inr tt))
      /\ Consumer.split_records ((name ++ "=" ++ escape v ++ ";") ++ rest)
         = (name ++ "=" ++ v) :: Consumer.split_records rest).
Proof.
  split; [apply escape_flat_map|]. split; [apply unescape_escape|].
  split; [intros w; apply escape_injective|].
  intros Hs Hv HR. split.
  { intros io. rewrite print_setting_run. unfold render. now rewrite HR. }
  rewrite <- !app_assoc.
  rewrite split_records_prefix; [|exact Hs|reflexivity].
  change ("=" ++ escape v ++ ";" ++ rest) with ("="%char :: (escape v ++ ";" ++ rest)).
  cbn [Consumer.split_records].
  change (Ascii.eqb "=" ";") with false. cbv iota.
  destruct (escape v ++ ";" ++ rest) as [|d t] eqn:E.
  { destruct (escape v); discriminate. }
  change (Ascii.eqb "=" "\") with false. cbn [andb]. rewrite <- E.
  rewrite (split_records_value v rest Hv).
  reflexivity.
Qed.

Lemma C6_witness :
  (forall io,
      print_setting example_rule "CMAKE_INSTALL_PREFIX" "/opt/a;b" ";" io
      = (wrote io ["CMAKE_INSTALL_PREFIX" ++ "=" ++ escape "/opt/a;b" ++ ";"], inr tt))
  /\ Consumer.split_records
       (("CMAKE_INSTALL_PREFIX" ++ "=" ++ escape "/opt/a;b" ++ ";")
          ++ "FPRIME_SETTINGS_FILE=proj/settings.ini")
     = ("CMAKE_INSTALL_PREFIX" ++ "=" ++ "/opt/a;b")
         :: Consumer.split_records "FPRIME_SETTINGS_FILE=proj/settings.ini".
Proof.
  apply (C6_escape_round_trip example_rule "CMAKE_INSTALL_PREFIX" "/opt/a;b"
           "FPRIME_SETTINGS_FILE=proj/settings.ini").
  - cbv. intuition discriminate.
  - reflexivity.
  - reflexivity.
Defined.

(** ** The last record *)




(** ** A run on consistent settings *)

Lemma C1_one_record_per_field_fails :
  let p := script example_ini example_real only_options only_options in
  (forall k (v u : value k), only_options k = Some v -> only_options k = Some u -> v = u)
  /\ filter (present only_options only_options) CMAKE_NEEDED_SETTINGS
     = [default_cmake_options]
  /\ out p = ["A=1;" : str; "B=2;" : str; "FPRIME_SETTINGS_FILE=proj/settings.ini" : str]
  /\ List.length (out p)
     <> List.length (filter (present only_options only_options) CMAKE_NEEDED_SETTINGS) + 1.
Proof.
  repeat split.
  - intros k v u Hv Hu. congruence.
  - vm_compute. discriminate.
Qed.

(** C1, as the code has it: when the two dicts agree on every setting both
    have, the output is the records of the settings both have, in the order
    [framework_path], [project_root], [library_locations],
    [default_cmake_options], [install_destination], and then the record
    [FPRIME_SETTINGS_FILE]; the status is 0.  Each setting other than
    [default_cmake_options] gives exactly one record, under its own name.
    [default_cmake_options] gives the records of its lines, in the order of
    the lines: one record for a line with a non-empty key, under that key,
    and none for a line with an empty key. *)
Theorem C1_records_in_fixed_order (ini real : str) (lo ut : IniSettings) :
  (forall k (v u : value k), lo k = Some v -> ut k = Some u -> v = u) ->
  let R := [remapping_rule ini real] in
  let p := script ini real lo ut in
  let key item := fst (Py.split1 "="%char (Py.strip item)) in
  let val item :=
    match snd (Py.split1 "="%char (Py.strip item)) with
    | Some v => v
    | None => []
    end in
  status p = 0%Z
  /\ out p
     = block R lo ut framework_path ++ block R lo ut project_root
         ++ block R lo ut library_locations ++ block R lo ut default_cmake_options
         ++ block R lo ut install_destination
         ++ [render R "FPRIME_SETTINGS_FILE" ini ""]
  /\ (forall k v u, lo k = Some v -> ut k = Some u -> block R lo ut k = emitted R k v)
  /\ (forall k, lo k = None \/ ut k = None -> block R lo ut k = [])
  /\ (forall k v io, handler R k v io = (wrote io (emitted R k v), inr tt))
  /\ (forall k v, k <> default_cmake_options -> List.length (emitted R k v) = 1)
  /\ (forall v,
        emitted R framework_path v
        = ["FPRIME_FRAMEWORK_PATH" ++ "=" ++ apply_remapping R (escape v) ++ ";"])
  /\ (forall v,
        emitted R project_root v
        = ["FPRIME_PROJECT_ROOT" ++ "=" ++ apply_remapping R (escape v) ++ ";"])
  /\ (forall v,
        emitted R library_locations v
        = ["FPRIME_LIBRARY_LOCATIONS" ++ "="
             ++ apply_remapping R (escape (Py.join ";" v)) ++ ";"])
  /\ (forall a b,
        emitted R library_locations [a; b]
        = ["FPRIME_LIBRARY_LOCATIONS" ++ "="
             ++ apply_remapping R (escape (a ++ ";" ++ b)) ++ ";"])
  /\ (forall v,
        emitted R install_destination v
        = ["CMAKE_INSTALL_PREFIX" ++ "=" ++ apply_remapping R (escape v) ++ ";"])
  /\ (forall v,
        emitted R default_cmake_options v
        = flat_map (line_records R) (Py.split "010"%char v))
  /\ (forall lines,
        lines <> [] -> (forall l, In l lines -> ~ In "010"%char l) ->
        emitted R default_cmake_options (Py.join ["010"%char] lines)
        = flat_map (line_records R) lines)
  /\ (forall item,
        key item <> [] ->
        line_records R item
        = [key item ++ "=" ++ apply_remapping R (escape (val item)) ++ ";"])
  /\ (forall item, key item = [] -> line_records R item = []).
Proof.
  intros Hagree R p key val. subst p.
  rewrite (script_consistent ini real lo ut (agree_consistent lo ut _ Hagree)).
  fold R. cbn [status out flat_map CMAKE_NEEDED_SETTINGS].
  split; [reflexivity|]. split; [rewrite <- !app_assoc; reflexivity|].
  repeat match goal with |- _ /\ _ => split end; try reflexivity.
  - intros k v u Hv Hu. unfold block. now rewrite Hv, Hu.
  - intros k Hmiss. apply (missing_setting R lo ut k Hmiss).
  - intros k v io. apply handler_run.
  - intros k v Hk. destruct k; try reflexivity. congruence.
  - intros lines Hne Hnl. cbn [emitted]. now rewrite split_join.
  - intros item Hkey. subst key val. cbn beta in *. unfold line_records.
    destruct (fst (Py.split1 "=" (Py.strip item))); [congruence|].
    destruct (snd (Py.split1 "=" (Py.strip item))); reflexivity.
  - intros item Hkey. subst key. cbn beta in *. unfold line_records.
    now rewrite Hkey.
Qed.

Lemma C1_witness :
  let p := script example_ini example_real example_settings example_settings in
  status p = 0%Z
  /\ out p
     = ["FPRIME_FRAMEWORK_PATH=fprime;" : str;
        "FPRIME_PROJECT_ROOT=proj;" : str;
        "FPRIME_LIBRARY_LOCATIONS=proj/lib1\;proj/lib2;" : str;
        "A=1;" : str; "B=x\;y;" : str; "VERBOSE=;" : str;
        "CMAKE_INSTALL_PREFIX=proj/build;" : str;
        "FPRIME_SETTINGS_FILE=proj/settings.ini" : str].
Proof.
  pose proof (C1_records_in_fixed_order example_ini example_real
                example_settings example_settings) as H.
  cbv zeta in H |- *.
  destruct H as (H1 & H2 & _).
  - intros k v u Hv Hu. congruence.
  - split; [exact H1 | rewrite H2; reflexivity].
Defined.

(** ** A run on inconsistent settings *)

(** C2: when both dicts have a setting and the two values differ, the run
    ends with status 1.  The output stops in front of that setting: it is
    the records of settings that come earlier in the table, and neither the
    setting, nor a later one, nor [FPRIME_SETTINGS_FILE] is written.  The
    message of the failed assertion is the last line on [stderr]. *)
Theorem C2_mismatch_aborts (ini real : str) (lo ut : IniSettings)
    (k : setting) (v u : value k) :
  lo k = Some v -> ut k = Some u -> v <> u ->
  let R := [remapping_rule ini real] in
  let p := script ini real lo ut in
  status p = 1%Z
  /\ exists before after,
       CMAKE_NEEDED_SETTINGS = before ++ after
       /\ In k after /\ ~ In k before
       /\ out p = flat_map (block R lo ut) before
       /\ err p = flat_map (warnings lo ut) before
                    ++ ["CMake can only parse unittest independent settings" ++ "
"].
Proof.
  intros Hv Hu Hne R p. subst p.
  pose proof (differ_inconsistent lo ut k v u Hv Hu Hne) as Hk.
  destruct (first_inconsistent lo ut _ k (all_settings_needed k) Hk)
    as (before & j & after & Hs & Hb & Hj & Hin).
  rewrite (script_abort ini real lo ut before j after Hs Hb Hj).
  fold R. cbn [status out err]. split; [reflexivity|].
  exists before, (j :: after). repeat split; try assumption.
  intros Hkb. rewrite forallb_forall in Hb. specialize (Hb k Hkb). congruence.
Qed.

Lemma C2_witness :
  let lo := framework_at "/home/u/fprime" in
  let ut := framework_at "/opt/fprime" in
  let R := [remapping_rule example_ini example_real] in
  let p := script example_ini example_real lo ut in
  status p = 1%Z
  /\ exists before after,
       CMAKE_NEEDED_SETTINGS = before ++ after
       /\ In framework_path after /\ ~ In framework_path before
       /\ out p = flat_map (block R lo ut) before
       /\ err p = flat_map (warnings lo ut) before
                    ++ ["CMake can only parse unittest independent settings" ++ "
"].
Proof.
  apply (C2_mismatch_aborts example_ini example_real
           (framework_at "/home/u/fprime") (framework_at "/opt/fprime")
           framework_path "/home/u/fprime" "/opt/fprime").
  - reflexivity.
  - reflexivity.
  - discriminate.
Defined.

(** ** Missing settings *)

Lemma C4_abort_hides_missing_field :
  let lo := framework_at "/home/u/fprime" in
  let ut := framework_at "/opt/fprime" in
  let p := script example_ini example_real lo ut in
  lo project_root = None
  /\ status p = 1%Z
  /\ ~ In (warning_chunk project_root) (err p).
Proof.
  repeat split. vm_compute. intros [H|[]]. discriminate.
Qed.

(** C4, as the code has it: when the loop comes to a setting that one of the
    dicts lacks, it writes the warning with the name of the setting to
    [stderr], writes nothing to [stdout] and goes on with the rest of the
    table.  When no setting that both dicts have differs, the run ends with
    status 0, the warning is on [stderr] and the output is the records of
    the other settings and [FPRIME_SETTINGS_FILE]. *)
Theorem C4_missing_field_warns (ini real : str) (lo ut : IniSettings) (k : setting) :
  lo k = None \/ ut k = None ->
  let R := [remapping_rule ini real] in
  let p := script ini real lo ut in
  warning_chunk k
  = "[WARNING] Failed to load settings.ini field '" ++ setting_name k
      ++ "'. Update fprime-util.;"
  /\ (forall rest io,
        loop R lo ut (k :: rest) io
        = loop R lo ut rest (mkIO (stdout io) (stderr io ++ [warning_chunk k])))
  /\ block R lo ut k = []
  /\ ((forall j (v u : value j), lo j = Some v -> ut j = Some u -> v = u) ->
      status p = 0%Z
      /\ In (warning_chunk k) (err p)
      /\ out p = flat_map (block R lo ut) CMAKE_NEEDED_SETTINGS
                   ++ [render R "FPRIME_SETTINGS_FILE" ini ""]).
Proof.
  intros Hmiss R p.
  destruct (missing_setting R lo ut k Hmiss) as (Hcons & Hpres & Hblock).
  split; [|split; [|split; [exact Hblock|]]].
  - unfold warning_chunk, warning, str_of_exn. now rewrite <- !app_assoc.
  - intros rest io. unfold loop. cbn [for_each]. unfold bind.
    rewrite process_setting_run, Hcons, Hblock. unfold warnings. rewrite Hpres.
    now rewrite wrote_nil.
  - intros Hagree. subst p.
    rewrite (script_consistent ini real lo ut (agree_consistent lo ut _ Hagree)).
    fold R. cbn [status err out]. repeat split.
    apply in_flat_map. exists k. split; [apply all_settings_needed|].
    unfold warnings. rewrite Hpres. now left.
Qed.

Lemma C4_witness :
  let p := script example_ini example_real only_options only_options in
  status p = 0%Z
  /\ In (warning_chunk project_root) (err p)
  /\ out p = ["A=1;" : str; "B=2;" : str; "FPRIME_SETTINGS_FILE=proj/settings.ini" : str].
Proof.
  destruct (C4_missing_field_warns example_ini example_real
              only_options only_options project_root)
    as (_ & _ & _ & H).
  - left. reflexivity.
  - destruct H as (Hst & Hw & Hout).
    + intros j v u Hv Hu. congruence.
    + cbv zeta. split; [exact Hst|]. split; [exact Hw|]. reflexivity.
Defined.

(** ** Default options *)

Lemma split1_key_value (key value : str) :
  ~ In "="%char key ->
  Py.split1 "=" (key ++ "=" ++ value) = (key, Some value).
Proof.
  induction key as [|c key IH]; intros Hkey.
  - reflexivity.
  - cbn [app Py.split1].
    destruct (Ascii.eqb_spec c "=") as [->|Hc].
    + exfalso. apply Hkey. now left.
    + change (key ++ "="%char :: value) with (key ++ "=" ++ value).
      rewrite IH; [reflexivity|]. intros H. apply Hkey. now right.
Qed.

(** C9: the handler of [default_cmake_options] splits the text at the
    newlines, so that lines joined by newlines are taken apart again, and
    goes through the lines in order.  White space around a line is dropped.
    A line that, stripped of the white space around it, reads [KEY=VALUE]
    with a non-empty key is written as a record of its own under the name
    [KEY], with the value printed as every value is; it is [KEY=VALUE;] when
    the value has no [;] and the remapping leaves it as it is.  A line with
    an empty key (an empty line, or one that starts with [=]) gives no
    record.  Nothing is written to [stderr] and the handler returns. *)
Theorem C9_default_options_pass_through (R : REMAPPING_t) :
  (forall text io,
      handler R default_cmake_options text io
      = (mkIO (stdout io ++ flat_map (line_records R) (Py.split "010"%char text))
           (stderr io), inr tt))
  /\ (forall lines io,
        lines <> [] -> (forall l, In l lines -> ~ In "010"%char l) ->
        handler R default_cmake_options (Py.join ["010"%char] lines) io
        = (mkIO (stdout io ++ flat_map (line_records R) lines) (stderr io), inr tt))
  /\ (forall w1 item w2,
        forallb Py.isspace w1 = true -> forallb Py.isspace w2 = true ->
        line_records R (w1 ++ item ++ w2) = line_records R item)
  /\ (forall item key value,
        Py.strip item = key ++ "=" ++ value -> key <> [] -> ~ In "="%char key ->
        line_records R item = [key ++ "=" ++ apply_remapping R (escape value) ++ ";"])
  /\ (forall item key value,
        Py.strip item = key ++ "=" ++ value -> key <> [] -> ~ In "="%char key ->
        Py.contains ";" value = false -> apply_remapping R value = value ->
        line_records R item = [key ++ "=" ++ value ++ ";"])
  /\ (forall item, fst (Py.split1 "=" (Py.strip item)) = [] -> line_records R item = [])
  /\ (forall item value, Py.strip item = "=" ++ value -> line_records R item = [])
  /\ (forall item, Py.strip item = [] -> line_records R item = []).
Proof.
  assert (Hrec : forall item key value,
             Py.strip item = key ++ "=" ++ value -> key <> [] -> ~ In "="%char key ->
             line_records R item = [render R key value ";"]).
  { intros item key value Hitem Hkey Heq. unfold line_records.
    rewrite Hitem, (split1_key_value key value Heq). cbn [fst snd].
    destruct key; [congruence | reflexivity]. }
  repeat match goal with |- _ /\ _ => split end.
  - intros text io. rewrite handler_run. reflexivity.
  - intros lines io Hne Hnl. rewrite handler_run. cbn [emitted].
    now rewrite split_join.
  - intros w1 item w2 H1 H2. unfold line_records.
    now rewrite (strip_surrounding_space w1 item w2 H1 H2).
  - intros item key value Hitem Hkey Heq. now rewrite (Hrec item key value).
  - intros item key value Hitem Hkey Heq Hsemi Hremap.
    rewrite (Hrec item key value Hitem Hkey Heq). unfold render.
    now rewrite (escape_absent _ Hsemi), Hremap.
  - intros item H. unfold line_records. now rewrite H.
  - intros item value H. unfold line_records. now rewrite H.
  - intros item H. unfold line_records. now rewrite H.
Qed.

Lemma C9_witness :
  handler example_rule default_cmake_options (Py.join ["010"%char] example_lines)
    (mkIO [] [])
  = (mkIO ["A=1;" : str; "B=x\;y;" : str; "DIR=d;" : str] [], inr tt).
Proof.
  destruct (C9_default_options_pass_through example_rule) as (_ & H & _).
  apply (H example_lines (mkIO [] [])).
  - discriminate.
  - intros l Hl. repeat (destruct Hl as [<-|Hl]; [cbv; intuition discriminate|]).
    destruct Hl.
Defined.

(** * Further properties of the script *)

(** ** Rules for particular pairs of paths *)

Lemma commonprefix_app_l (a x : str) : Py.commonprefix (a ++ x) a = a.
Proof.
  induction a as [|c a IH]; [now destruct x|].
  cbn [app Py.commonprefix]. now rewrite Ascii.eqb_refl, IH.
Qed.

Lemma commonprefix_app_r (a x : str) : Py.commonprefix a (a ++ x) = a.
Proof.
  induction a as [|c a IH]; [reflexivity|].
  cbn [app Py.commonprefix]. now rewrite Ascii.eqb_refl, IH.
Qed.

Lemma common_suffix_app_l (G real : str) : common_suffix (G ++ real) real = real.
Proof.
  unfold common_suffix, Py.reversed.
  now rewrite rev_app_distr, commonprefix_app_l, rev_involutive.
Qed.

Lemma common_suffix_app_r (D ini : str) : common_suffix ini (D ++ ini) = ini.
Proof.
  unfold common_suffix, Py.reversed.
  now rewrite rev_app_distr, commonprefix_app_r, rev_involutive.
Qed.

Lemma slice_to_neg_all (s : str) : Py.slice_to_neg s (List.length s) = [].
Proof.
  unfold Py.slice_to_neg. destruct (List.length s) eqn:E; [reflexivity|].
  now rewrite Nat.sub_diag.
Qed.

Lemma interleave_length (new s : str) :
  List.length (Py.interleave new s)
  = List.length s + (List.length s + 1) * List.length new.
Proof.
  induction s as [|c s IH]; cbn [Py.interleave List.length].
  - lia.
  - rewrite length_app. cbn [List.length]. rewrite IH. lia.
Qed.

(** When the settings path is given in its resolved form the rule is the
    empty one, and a value is printed escaped and otherwise as it is. *)
Theorem resolved_path_given (path : str) :
  remapping_rule path path = ([], [])
  /\ forall name text ending io,
       print_setting [remapping_rule path path] name text ending io
       = (wrote io [name ++ "=" ++ escape text ++ ending], inr tt).
Proof.
  assert (Hrule : remapping_rule path path = ([], [])).
  { unfold remapping_rule.
    pose proof (common_suffix_app_l [] path) as HS. cbn [app] in HS.
    rewrite HS. now rewrite slice_to_neg_all. }
  split; [exact Hrule|].
  intros name text ending io. rewrite Hrule, print_setting_run. unfold render.
  cbn [apply_remapping]. now rewrite replace_empty_rule.
Qed.

(** When the resolved path is the given path behind a directory, as it is
    for a relative path without links, the rule deletes that directory. *)
Theorem relative_path_given (D ini : str) :
  ini <> [] -> remapping_rule ini (D ++ ini) = (D, []).
Proof.
  intros Hini. unfold remapping_rule. rewrite common_suffix_app_r.
  now rewrite slice_to_neg_all, slice_to_neg_app.
Qed.

Lemma relative_path_given_witness :
  remapping_rule "proj/settings.ini" ("/home/u/" ++ "proj/settings.ini")
  = ("/home/u/" : str, [] : str).
Proof.
  apply (relative_path_given "/home/u/" "proj/settings.ini"). discriminate.
Defined.

(** When the given path ends in the whole resolved path, as [/x/../x/s.ini]
    does for [/x/s.ini], the rule has the empty string to look for: the rest
    of the given path is put in front of every character of a printed value
    and behind the last one. *)
Theorem given_path_ends_in_resolved (G real : str) :
  real <> [] ->
  remapping_rule (G ++ real) real = ([], G)
  /\ (forall name text ending io,
        print_setting [remapping_rule (G ++ real) real] name text ending io
        = (wrote io [name ++ "=" ++ Py.interleave G (escape text) ++ ending], inr tt))
  /\ (forall s,
        List.length (Py.interleave G s)
        = List.length s + (List.length s + 1) * List.length G).
Proof.
  intros Hreal.
  assert (Hrule : remapping_rule (G ++ real) real = ([], G)).
  { unfold remapping_rule. rewrite common_suffix_app_l.
    now rewrite slice_to_neg_all, slice_to_neg_app. }
  split; [exact Hrule|]. split; [|apply interleave_length].
  intros name text ending io. rewrite Hrule, print_setting_run. reflexivity.
Qed.

Lemma given_path_ends_in_resolved_witness :
  remapping_rule ("/x/.." ++ "/x/s.ini") "/x/s.ini" = ([] : str, "/x/.." : str).
Proof.
  apply (given_path_ends_in_resolved "/x/.." "/x/s.ini"). discriminate.
Defined.

(** ** What the rule does to a value *)

(** Of a value under the resolved prefix the prefix is replaced by the given
    one, once, when the prefix has no [;] and does not come again in the
    escaped rest. *)
Theorem value_under_resolved_prefix (P G rest : str) :
  P <> [] -> Py.contains ";" P = false -> Py.contains P (escape rest) = false ->
  forall name ending io,
    print_setting [(P, G)] name (P ++ rest) ending io
    = (wrote io [name ++ "=" ++ G ++ escape rest ++ ending], inr tt).
Proof.
  intros HP Hsemi Hrest name ending io.
  rewrite print_setting_run. unfold render. cbn [apply_remapping].
  rewrite escape_app, (escape_absent P Hsemi), (replace_prefix P G _ HP Hrest).
  now rewrite <- app_assoc.
Qed.

Lemma value_under_resolved_prefix_witness :
  print_setting example_rule "FPRIME_PROJECT_ROOT" ("/home/u/" ++ "proj/lib;1") ";"
    (mkIO [] [])
  = (wrote (mkIO [] [])
       ["FPRIME_PROJECT_ROOT" ++ "=" ++ "" ++ escape "proj/lib;1" ++ ";"], inr tt).
Proof.
  apply (value_under_resolved_prefix "/home/u/" "" "proj/lib;1").
  - discriminate.
  - reflexivity.
  - reflexivity.
Defined.

(** A value whose escaped text does not contain the resolved prefix is
    printed escaped and otherwise as it is. *)
Theorem value_without_resolved_prefix (P G text : str) :
  P <> [] -> Py.contains P (escape text) = false ->
  forall name ending io,
    print_setting [(P, G)] name text ending io
    = (wrote io [name ++ "=" ++ escape text ++ ending], inr tt).
Proof.
  intros HP Habs name ending io.
  rewrite print_setting_run. unfold render. cbn [apply_remapping].
  now rewrite (replace_absent P G _ HP Habs).
Qed.

Lemma value_without_resolved_prefix_witness :
  print_setting example_rule "FPRIME_FRAMEWORK_PATH" "/opt/fprime;1" ";" (mkIO [] [])
  = (wrote (mkIO [] [])
       ["FPRIME_FRAMEWORK_PATH" ++ "=" ++ escape "/opt/fprime;1" ++ ";"], inr tt).
Proof.
  apply (value_without_resolved_prefix "/home/u/" "" "/opt/fprime;1").
  - discriminate.
  - reflexivity.
Defined.

(** The rule takes the resolved settings path back to the path as given,
    when the resolved prefix is not empty and does not come again in the
    common suffix. *)
Theorem resolved_path_maps_to_given (ini real : str) :
  fst (remapping_rule ini real) <> [] ->
  Py.contains (fst (remapping_rule ini real)) (common_suffix ini real) = false ->
  apply_remapping [remapping_rule ini real] real = ini.
Proof.
  intros HP Habs.
  destruct (common_suffix_split ini real) as (G & P & Hi & Hr & _).
  unfold remapping_rule in *.
  set (S := common_suffix ini real) in *.
  assert (HS : S <> []).
  { intros E. apply HP. now rewrite E. }
  assert (HP' : Py.slice_to_neg real (List.length S) = P).
  { rewrite Hr at 1. now apply slice_to_neg_app. }
  assert (HG' : Py.slice_to_neg ini (List.length S) = G).
  { rewrite Hi at 1. now apply slice_to_neg_app. }
  rewrite HP', HG' in *. cbn [fst apply_remapping] in *.
  rewrite Hr at 1. rewrite Hi at 1.
  now apply replace_prefix.
Qed.

Lemma resolved_path_maps_to_given_witness :
  apply_remapping [remapping_rule example_ini example_real] example_real = example_ini.
Proof.
  apply (resolved_path_maps_to_given example_ini example_real).
  - discriminate.
  - reflexivity.
Defined.

(** ** Escaped text *)

(** In an escaped value every [;] has a backslash in front of it. *)
Theorem escape_leaves_no_bare_semicolon (v a b : str) :
  escape v = a ++ ";"%char :: b -> exists a', a = a' ++ ["\"%char].
Proof. apply escaped_semicolon. Qed.

Lemma escape_leaves_no_bare_semicolon_witness :
  exists a', ("a\" : str) = a' ++ ["\"%char].
Proof.
  apply (escape_leaves_no_bare_semicolon "a;b" "a\" "b"). reflexivity.
Defined.

(** A resolved prefix with a [;] that has no backslash in front of it is
    never found, because the rule is applied to the escaped text: nothing is
    remapped. *)
Theorem prefix_with_semicolon_never_matches (x y G : str) (c : ascii) (text : str) :
  c <> "\"%char ->
  let P := x ++ c :: ";"%char :: y in
  Py.contains P (escape text) = false
  /\ forall name ending io,
       print_setting [(P, G)] name text ending io
       = (wrote io [name ++ "=" ++ escape text ++ ending], inr tt).
Proof.
  intros Hc P.
  assert (Habs : Py.contains P (escape text) = false)
    by now apply bare_semicolon_absent.
  split; [exact Habs|].
  intros name ending io.
  rewrite print_setting_run. unfold render. cbn [apply_remapping].
  rewrite replace_absent; [reflexivity | subst P; now destruct x | exact Habs].
Qed.

Lemma prefix_with_semicolon_never_matches_witness :
  print_setting [("/r/a;b/" : str, "" : str)] "FPRIME_PROJECT_ROOT" "/r/a;b/lib" ";"
    (mkIO [] [])
  = (wrote (mkIO [] [])
       ["FPRIME_PROJECT_ROOT" ++ "=" ++ escape "/r/a;b/lib" ++ ";"], inr tt).
Proof.
  apply (prefix_with_semicolon_never_matches "/r/" "b/" "" "a"%char "/r/a;b/lib").
  discriminate.
Defined.

(** ** The exit status and the warnings *)

(** Behind the parsing of the arguments and the loading of the two dicts,
    the status is 0 exactly when the dicts agree on every setting both have,
    and 1 exactly when both have some setting with different values. *)
Theorem exit_status (ini real : str) (lo ut : IniSettings) :
  let p := script ini real lo ut in
  (status p = 0%Z
   <-> forall k (v u : value k), lo k = Some v -> ut k = Some u -> v = u)
  /\ (status p = 1%Z
      <-> exists k (v u : value k), lo k = Some v /\ ut k = Some u /\ v <> u).
Proof.
  intros p. subst p. split; split.
  - intros H0. apply consistent_agree. now apply (script_status_0 ini real).
  - intros Hagree.
    now rewrite (script_consistent ini real lo ut (agree_consistent lo ut _ Hagree)).
  - intros H1.
    destruct (forallb (consistent lo ut) CMAKE_NEEDED_SETTINGS) eqn:E.
    + rewrite (script_consistent ini real lo ut E) in H1. discriminate.
    + destruct (forallb_false _ _ E) as (k & _ & Hk). exists k.
      unfold consistent in Hk.
      destruct (lo k) as [v|]; [|discriminate].
      destruct (ut k) as [u|]; [|discriminate].
      exists v, u. repeat split. intros Hvu.
      apply value_eqb_eq in Hvu. congruence.
  - intros (k & v & u & Hv & Hu & Hne).
    pose proof (differ_inconsistent lo ut k v u Hv Hu Hne) as Hk.
    destruct (first_inconsistent lo ut _ k (all_settings_needed k) Hk)
      as (before & j & after & Hs & Hb & Hj & _).
    now rewrite (script_abort ini real lo ut before j after Hs Hb Hj).
Qed.

Lemma warnings_filter (lo ut : IniSettings) (ks : list setting) :
  flat_map (warnings lo ut) ks
  = map warning_chunk (filter (fun k => negb (present lo ut k)) ks).
Proof.
  induction ks as [|k ks IH]; [reflexivity|].
  cbn [flat_map filter]. unfold warnings at 1.
  destruct (present lo ut k); cbn [negb app map]; now rewrite IH.
Qed.

(** In a run of dicts that agree, [stderr] has the warnings of the settings
    one of the dicts lacks, one each in the order of the table, and nothing
    else; it is empty exactly when both dicts have all five settings. *)
Theorem warnings_of_a_run (ini real : str) (lo ut : IniSettings) :
  (forall k (v u : value k), lo k = Some v -> ut k = Some u -> v = u) ->
  let p := script ini real lo ut in
  err p = map warning_chunk
            (filter (fun k => negb (present lo ut k)) CMAKE_NEEDED_SETTINGS)
  /\ (err p = [] <-> forall k, exists v u, lo k = Some v /\ ut k = Some u).
Proof.
  intros Hagree p. subst p.
  rewrite (script_consistent ini real lo ut (agree_consistent lo ut _ Hagree)).
  cbn [err]. rewrite warnings_filter. split; [reflexivity|]. split.
  - intros Hnil k.
    destruct (present lo ut k) eqn:Hp.
    + unfold present in Hp. destruct (lo k) as [v|]; [|discriminate].
      destruct (ut k) as [u|]; [|discriminate]. now exists v, u.
    + assert (Hin : In k (filter (fun k => negb (present lo ut k)) CMAKE_NEEDED_SETTINGS)).
      { apply filter_In. split; [apply all_settings_needed | now rewrite Hp]. }
      apply (in_map warning_chunk) in Hin. rewrite Hnil in Hin. contradiction.
  - intros Hall.
    assert (Hf : filter (fun k => negb (present lo ut k)) CMAKE_NEEDED_SETTINGS = []).
    { assert (Hp : forall k, present lo ut k = true).
      { intros k. destruct (Hall k) as (v & u & Hv & Hu). unfold present.
        now rewrite Hv, Hu. }
      cbn [filter CMAKE_NEEDED_SETTINGS]. now rewrite !Hp. }
    now rewrite Hf.
Qed.

Lemma warnings_of_a_run_witness :
  err (script example_ini example_real only_options only_options)
  = map warning_chunk
      (filter (fun k => negb (present only_options only_options k))
         CMAKE_NEEDED_SETTINGS).
Proof.
  apply (warnings_of_a_run example_ini example_real only_options only_options).
  intros k v u Hv Hu. congruence.
Defined.

(** ** Lines of the default options *)

(** A line that has no [=] is printed as a record with an empty value: what
    the remapping makes of the empty string, which is the empty string under
    a rule that looks for a non-empty prefix. *)
Theorem option_line_without_equals (R : REMAPPING_t) (item : str) :
  Py.strip item <> [] -> ~ In "="%char (Py.strip item) ->
  (forall io,
      print_list_item R item io
      = (wrote io [Py.strip item ++ "=" ++ apply_remapping R [] ++ ";"], inr tt))
  /\ (forall P G io,
        R = [(P, G)] -> P <> [] ->
        print_list_item R item io = (wrote io [Py.strip item ++ "=;"], inr tt)).
Proof.
  intros Hne Heq.
  assert (Hrun : forall io,
             print_list_item R item io
             = (wrote io [Py.strip item ++ "=" ++ apply_remapping R [] ++ ";"], inr tt)).
  { intros io. rewrite print_list_item_run. unfold line_records.
    rewrite (split1_no_separator _ _ Heq). cbn [fst snd].
    destruct (Py.strip item); [congruence | reflexivity]. }
  split; [exact Hrun|].
  intros P G io -> HP. rewrite Hrun. cbn [apply_remapping].
  destruct P; [congruence | reflexivity].
Qed.

Lemma option_line_without_equals_witness :
  print_list_item example_rule " VERBOSE " (mkIO [] [])
  = (wrote (mkIO [] []) [Py.strip " VERBOSE " ++ "=;"], inr tt).
Proof.
  destruct (option_line_without_equals example_rule " VERBOSE ") as [_ H].
  - discriminate.
  - cbv. intuition discriminate.
  - apply (H "/home/u/" ""); [reflexivity | discriminate].
Defined.

(** Text of white space only, the empty text and empty lines among it, gives
    no record, and nothing else is written. *)
Theorem blank_options_print_nothing (R : REMAPPING_t) (text : str) (io : stdio) :
  forallb Py.isspace text = true ->
  handler R default_cmake_options text io = (io, inr tt).
Proof.
  intros Hsp. rewrite handler_run. cbn [emitted].
  assert (Hnil : flat_map (line_records R) (Py.split "010" text) = []).
  { assert (Hitems : forall item, In item (Py.split "010" text) ->
                                  line_records R item = []).
    { intros item Hitem. unfold line_records.
      rewrite strip_all_space; [reflexivity|].
      apply forallb_forall. intros c Hc.
      rewrite forallb_forall in Hsp. apply Hsp.
      now apply (split_items_chars "010" text item). }
    induction (Py.split "010" text) as [|item items IH]; [reflexivity|].
    cbn [flat_map]. rewrite Hitems by now left.
    apply IH. intros i Hi. apply Hitems. now right. }
  rewrite Hnil. now rewrite wrote_nil.
Qed.

Lemma blank_options_print_nothing_witness :
  handler example_rule default_cmake_options ("  
 " : str) (mkIO [] [])
  = (mkIO [] [], inr tt).
Proof.
  apply (blank_options_print_nothing example_rule). reflexivity.
Defined.

(** The records of two texts joined by a newline are the records of the
    first followed by the records of the second. *)
Theorem options_of_joined_texts (R : REMAPPING_t) (a b : str) (io : stdio) :
  handler R default_cmake_options (a ++ "010"%char :: b) io
  = (handler R default_cmake_options a ;; handler R default_cmake_options b) io.
Proof.
  unfold bind. rewrite !handler_run. cbn [emitted].
  now rewrite split_app, flat_map_app, wrote_wrote.
Qed.

(** White space in front of a line and behind it makes no difference to
    what is printed for the line. *)
Theorem option_line_indentation (R : REMAPPING_t) (w1 item w2 : str) (io : stdio) :
  forallb Py.isspace w1 = true -> forallb Py.isspace w2 = true ->
  print_list_item R (w1 ++ item ++ w2) io = print_list_item R item io.
Proof.
  intros H1 H2. unfold print_list_item.
  now rewrite (strip_surrounding_space w1 item w2 H1 H2).
Qed.

Lemma option_line_indentation_witness :
  print_list_item example_rule ("    " ++ "A=1" ++ " ") (mkIO [] [])
  = print_list_item example_rule "A=1" (mkIO [] []).
Proof.
  apply (option_line_indentation example_rule "    " "A=1" " "); reflexivity.
Defined.
